(** * certbot/hooks.py: hook scheduling, de-duplication and validation

    A shallow embedding of [certbot/hooks.py].  The module-level mutable
    state of the Python code ([os.environ], [pre_hook.already],
    [post_hook.eventually]) and the observable effects (log records and
    subprocess launches) are threaded through a state-and-exception monad.
    Python exceptions leave the state as it was when they were raised, as
    in the interpreter.  The operating system (file system, PATH search,
    [Popen]) is a set of section variables. *)

From Stdlib Require Import String Ascii ZArith List Sorting.Sorted.
From stdpp Require Import base gmap strings list pretty.
Import ListNotations.

Local Open Scope string_scope.

(** ** Python string helpers *)

Definition chr (n : nat) : string := String (ascii_of_nat n) EmptyString.
Definition nl : string := chr 10.
Definition dquote : string := chr 34.
Definition squote : string := chr 39.

(** Characters treated as whitespace by [str.split(None)] (the ASCII ones
    and the two Latin-1 ones, NEL and NBSP). *)
Definition is_space (c : ascii) : bool :=
  let n := nat_of_ascii c in
  (((9 <=? n) && (n <=? 13)) || ((28 <=? n) && (n <=? 32))
   || (n =? 133) || (n =? 160))%nat.

Fixpoint lstrip (s : string) : string :=
  match s with
  | EmptyString => EmptyString
  | String c r => if is_space c then lstrip r else s
  end.

Fixpoint take_token (s : string) : string :=
  match s with
  | EmptyString => EmptyString
  | String c r => if is_space c then EmptyString else String c (take_token r)
  end.

(** [shell_cmd.split(None, 1)[0]]: [None] is the [IndexError] raised
    when the string has no non-whitespace character. *)
Definition split_first (s : string) : option string :=
  match lstrip s with
  | EmptyString => None
  | s' => Some (take_token s')
  end.

(** [os.path.basename]: the part after the last slash. *)
Fixpoint basename_go (s acc : string) : string :=
  match s with
  | EmptyString => acc
  | String c r =>
      if Ascii.eqb c "/"%char then basename_go r EmptyString
      else basename_go r (acc ++ String c EmptyString)
  end.
Definition basename (s : string) : string := basename_go s EmptyString.

Fixpoint last_char (s : string) : option ascii :=
  match s with
  | EmptyString => None
  | String c EmptyString => Some c
  | String _ r => last_char r
  end.

(** [os.path.join(a, b)] for two components (POSIX). *)
Definition path_join (a b : string) : string :=
  match b with
  | String c _ => if Ascii.eqb c "/"%char then b else
      match a with
      | EmptyString => b
      | _ => if (match last_char a with Some d => Ascii.eqb d "/"%char | None => false end)
             then a ++ b else a ++ "/" ++ b
      end
  | EmptyString =>
      match a with
      | EmptyString => b
      | _ => if (match last_char a with Some d => Ascii.eqb d "/"%char | None => false end)
             then a else a ++ "/"
      end
  end.

(** Python truthiness of an optional string ([None] and [""] are false). *)
Definition truthy (o : option string) : bool :=
  match o with
  | Some (String _ _) => true
  | _ => false
  end.

(** [sorted] on a list of [str]: Python compares strings lexicographically
    by character code, which is [String.leb]; insertion sort is stable like
    Timsort, so it returns the same list. *)
Fixpoint insert_sorted (x : string) (l : list string) : list string :=
  match l with
  | [] => [x]
  | y :: r => if String.leb x y then x :: l else y :: insert_sorted x r
  end.
Fixpoint py_sorted (l : list string) : list string :=
  match l with
  | [] => []
  | x :: r => insert_sorted x (py_sorted r)
  end.

(** ** Process state and effects *)

Inductive level := Debug | Info | Warning | Error.

Inductive event :=
  | Log (lvl : level) (msg : string)
  | Exec (cmd : string) (env : gmap string string).

Inductive exn :=
  | IndexError
  | KeyError (key : string)
  | OSError (path : string)
  | HookCommandNotFound (msg : string).

Record St := mkSt {
  environ : gmap string string;      (* os.environ *)
  already : gset string;             (* pre_hook.already *)
  eventually : list string;          (* post_hook.eventually *)
  trace : list event                 (* log records and Popen launches *)
}.

Definition M (A : Type) : Type := St -> (exn + A) * St.

Definition ret {A} (a : A) : M A := fun s => (inr a, s).
Definition bind {A B} (m : M A) (f : A -> M B) : M B := fun s =>
  match m s with
  | (inl e, s') => (inl e, s')
  | (inr a, s') => f a s'
  end.
Definition raise {A} (e : exn) : M A := fun s => (inl e, s).
Definition get : M St := fun s => (inr s, s).
Definition put (s : St) : M unit := fun _ => (inr tt, s).

Notation "x <- m ;; k" := (bind m (fun x => k))
  (at level 100, m at next level, right associativity).
Notation "m ;;; k" := (bind m (fun _ => k))
  (at level 100, right associativity).

Definition emit (ev : event) : M unit := fun s =>
  (inr tt, mkSt (environ s) (already s) (eventually s) (trace s ++ [ev])).
Definition log (lvl : level) (msg : string) : M unit := emit (Log lvl msg).
Definition set_env (k v : string) : M unit := fun s =>
  (inr tt, mkSt (<[k := v]> (environ s)) (already s) (eventually s) (trace s)).
Definition add_already (c : string) : M unit := fun s =>
  (inr tt, mkSt (environ s) ({[c]} ∪ already s) (eventually s) (trace s)).
Definition append_eventually (c : string) : M unit := fun s =>
  (inr tt, mkSt (environ s) (already s) (eventually s ++ [c]) (trace s)).

Fixpoint mapM_ {A} (f : A -> M unit) (l : list A) : M unit :=
  match l with
  | [] => ret tt
  | x :: r => f x ;;; mapM_ f r
  end.

Definition nonempty (s : string) : bool :=
  match s with EmptyString => false | _ => true end.

(** The relevant fields of [configuration.NamespaceConfig]; hook options
    are [None] or a string. *)
Record Config := mkConfig {
  verb : string;
  directory_hooks : bool;
  dry_run : bool;
  cfg_pre_hook : option string;
  cfg_post_hook : option string;
  cfg_deploy_hook : option string;
  cfg_renew_hook : option string;
  renewal_pre_hooks_dir : string;
  renewal_post_hooks_dir : string;
  renewal_deploy_hooks_dir : string
}.

(** Python's [sub in s] on strings: [sub] occurs in [s] at some offset. *)
Fixpoint str_contains (sub s : string) : bool :=
  if String.prefix sub s then true else
  match s with
  | EmptyString => false
  | String _ r => str_contains sub r
  end.

(** The loop of [plug_util.path_surgery] (certbot/plugins/util.py): each of
    [dirs] that does not occur in the PATH string is appended to it with
    [os.pathsep]; returns the new PATH string and the list [added]. *)
Definition surgery_dirs : list string := ["/usr/sbin"; "/usr/local/bin"; "/usr/local/sbin"].
Definition extend_path (path : string) : string * list string :=
  fold_left (fun '(p, added) d =>
               if str_contains d p then (p, added) else (p ++ ":" ++ d, (added ++ [d])%list))
            surgery_dirs (path, []).
Arguments extend_path : simpl never.

Section Hooks.

(** The operating system, outside [hooks.py]:
    - [popen env cmd] is [Popen(cmd, shell=True, ...).communicate()] run
      with environment [env]: (stdout, stderr, returncode);
    - [exe_exists env p] is [util.exe_exists(p)] under [os.environ = env];
    - [path_exists p] is [os.path.exists(p)];
    - [listdir d] is [os.listdir(d)], [None] when it raises [OSError];
    - [is_exe p] is [util.is_exe(p)]. *)
Variable popen : gmap string string -> string -> string * string * Z.
Variable exe_exists : gmap string string -> string -> bool.
Variable path_exists : string -> bool.
Variable listdir : string -> option (list string).
Variable is_exe : string -> bool.

(** [plug_util.path_surgery] (certbot/plugins/util.py, called by [_prog]):
    [os.environ["PATH"]] raises [KeyError] when unset; the PATH is extended
    (and a DEBUG record written) when some directory was missing; a WARNING
    is logged when the command is still not found. *)
Definition path_surgery (cmd : string) : M bool :=
  s <- get ;;
  match environ s !! "PATH" with
  | None => raise (KeyError "PATH")
  | Some path0 =>
      let '(path, added) := extend_path path0 in
      (if existsb nonempty added then
         log Debug ("Can't find " ++ cmd ++ ", attempting PATH mitigation by adding "
                    ++ String.concat ":" added) ;;;
         set_env "PATH" path
       else ret tt) ;;;
      s' <- get ;;
      if exe_exists (environ s') cmd then ret true
      else
        log Warning ("Failed to find executable " ++ cmd ++ " in"
                     ++ (if existsb nonempty added then " expanded" else "")
                     ++ " PATH: " ++ path) ;;;
        ret false
  end.

(** [_prog] *)
Definition prog (shell_cmd : string) : M (option string) :=
  s <- get ;;
  if exe_exists (environ s) shell_cmd then ret (Some (basename shell_cmd)) else
  path_surgery shell_cmd ;;;
  s' <- get ;;
  if exe_exists (environ s') shell_cmd then ret (Some (basename shell_cmd))
  else ret None.

(** [validate_hook] *)
Definition validate_hook (shell_cmd : option string) (hook_name : string) : M unit :=
  if truthy shell_cmd then
    match split_first (default "" shell_cmd) with
    | None => raise IndexError
    | Some cmd =>
        p <- prog cmd ;;
        if truthy p then ret tt else
        s <- get ;;
        match environ s !! "PATH" with
        | None => raise (KeyError "PATH")
        | Some path =>
            if path_exists cmd then
              raise (HookCommandNotFound
                (hook_name ++ "-hook command " ++ cmd ++ " exists, but is not executable."))
            else
              raise (HookCommandNotFound
                ("Unable to find " ++ hook_name ++ "-hook command " ++ cmd
                 ++ " in the PATH." ++ nl ++ "(PATH is " ++ path ++ ")"))
        end
    end
  else ret tt.

(** [validate_hooks] *)
Definition validate_hooks (config : Config) : M unit :=
  validate_hook (cfg_pre_hook config) "pre" ;;;
  validate_hook (cfg_post_hook config) "post" ;;;
  validate_hook (cfg_deploy_hook config) "deploy" ;;;
  validate_hook (cfg_renew_hook config) "renew".

(** [execute]: [Popen] runs first, then the output is logged. *)
Definition execute (shell_cmd : string) : M (string * string) :=
  s <- get ;;
  let '(out, err, returncode) := popen (environ s) shell_cmd in
  emit (Exec shell_cmd (environ s)) ;;;
  match split_first shell_cmd with
  | None => raise IndexError
  | Some tok =>
      let base_cmd := basename tok in
      (if nonempty out then log Info ("Output from " ++ base_cmd ++ ":" ++ nl ++ out)
       else ret tt) ;;;
      (if negb (Z.eqb returncode 0) then
         log Error ("Hook command " ++ dquote ++ shell_cmd ++ dquote
                    ++ " returned error code " ++ pretty returncode)
       else ret tt) ;;;
      (if nonempty err then log Error ("Error output from " ++ base_cmd ++ ":" ++ nl ++ err)
       else ret tt) ;;;
      ret (err, out)
  end.

(** [_run_hook] *)
Definition run_hook (shell_cmd : string) : M string :=
  p <- execute shell_cmd ;; ret (fst p).

(** [list_hooks] *)
Definition list_hooks (dir_path : string) : M (list string) :=
  match listdir dir_path with
  | None => raise (OSError dir_path)
  | Some fs =>
      let paths := map (path_join dir_path) fs in
      ret (py_sorted (List.filter is_exe paths))
  end.

(** [_run_pre_hook_if_necessary] *)
Definition run_pre_hook_if_necessary (command : string) : M unit :=
  s <- get ;;
  if decide (command ∈ already s) then
    log Info ("Pre-hook command already run, skipping: " ++ command)
  else
    log Info ("Running pre-hook command: " ++ command) ;;;
    run_hook command ;;;
    add_already command.

(** [pre_hook] *)
Definition pre_hook (config : Config) : M unit :=
  (if String.eqb (verb config) "renew" && directory_hooks config then
     hooks <- list_hooks (renewal_pre_hooks_dir config) ;;
     mapM_ run_pre_hook_if_necessary hooks
   else ret tt) ;;;
  let cmd := cfg_pre_hook config in
  match cmd with
  | Some c => if truthy cmd then run_pre_hook_if_necessary c else ret tt
  | None => ret tt
  end.

(** [_run_eventually] *)
Definition run_eventually (command : string) : M unit :=
  s <- get ;;
  if in_dec string_dec command (eventually s) then ret tt
  else append_eventually command.

(** [post_hook] *)
Definition post_hook (config : Config) : M unit :=
  let cmd := cfg_post_hook config in
  if String.eqb (verb config) "renew" then
    (if directory_hooks config then
       hooks <- list_hooks (renewal_post_hooks_dir config) ;;
       mapM_ run_eventually hooks
     else ret tt) ;;;
    match cmd with
    | Some c => if truthy cmd then run_eventually c else ret tt
    | None => ret tt
    end
  else
    match cmd with
    | Some c => if truthy cmd then
                  log Info ("Running post-hook command: " ++ c) ;;; run_hook c ;;; ret tt
                else ret tt
    | None => ret tt
    end.

(** [run_saved_post_hooks] *)
Definition run_saved_post_hook (cmd : string) : M unit :=
  log Info ("Running post-hook command: " ++ cmd) ;;;
  run_hook cmd ;;; ret tt.

Definition run_saved_post_hooks : M unit :=
  s <- get ;;
  mapM_ run_saved_post_hook (eventually s).

(** [_run_deploy_hook] *)
Definition run_deploy_hook (command : string) (domains : list string)
    (lineage_path : string) (dry_run : bool) : M unit :=
  if dry_run then
    log Warning ("Dry run: skipping deploy hook command: " ++ command)
  else
    set_env "RENEWED_DOMAINS" (String.concat " " domains) ;;;
    set_env "RENEWED_LINEAGE" lineage_path ;;;
    log Info ("Running deploy-hook command: " ++ command) ;;;
    run_hook command ;;;
    ret tt.

(** [deploy_hook] *)
Definition deploy_hook (config : Config) (domains : list string)
    (lineage_path : string) : M unit :=
  match cfg_deploy_hook config with
  | Some c => if truthy (cfg_deploy_hook config)
              then run_deploy_hook c domains lineage_path (dry_run config)
              else ret tt
  | None => ret tt
  end.

(** The loop of [renew_hook] over the directory hooks, with its local set
    [executed_dir_hooks]. *)
Fixpoint run_dir_deploy_hooks (hooks : list string) (domains : list string)
    (lineage_path : string) (dry_run : bool) (executed : gset string)
    : M (gset string) :=
  match hooks with
  | [] => ret executed
  | hook :: r =>
      run_deploy_hook hook domains lineage_path dry_run ;;;
      run_dir_deploy_hooks r domains lineage_path dry_run ({[hook]} ∪ executed)
  end.

(** [renew_hook] *)
Definition renew_hook (config : Config) (domains : list string)
    (lineage_path : string) : M unit :=
  executed_dir_hooks <-
    (if directory_hooks config then
       hooks <- list_hooks (renewal_deploy_hooks_dir config) ;;
       run_dir_deploy_hooks hooks domains lineage_path (dry_run config) ∅
     else ret ∅) ;;
  match cfg_renew_hook config with
  | Some rh =>
      if truthy (cfg_renew_hook config) then
        if decide (rh ∈ executed_dir_hooks) then
          log Info ("Skipping deploy-hook " ++ squote ++ rh ++ squote
                    ++ " as it was already run.")
        else run_deploy_hook rh domains lineage_path (dry_run config)
      else ret tt
  | None => ret tt
  end.

End Hooks.

(** ** Observations on traces *)

(** The commands handed to [Popen], in launch order. *)
Definition execs (t : list event) : list string :=
  flat_map (fun e => match e with Exec c _ => [c] | Log _ _ => [] end) t.

(** The Python class name of an exception. *)
Definition exn_class (e : exn) : string :=
  match e with
  | IndexError => "IndexError"
  | KeyError _ => "KeyError"
  | OSError _ => "OSError"
  | HookCommandNotFound _ => "HookCommandNotFound"
  end.

(** First occurrences of a sequence of commands, given those already seen. *)
Fixpoint first_occurrences (seen l : list string) : list string :=
  match l with
  | [] => []
  | x :: r => if in_dec string_dec x seen then first_occurrences seen r
              else x :: first_occurrences (seen ++ [x]) r
  end.

Definition entry_ok (f : string) : bool :=
  match f with
  | String c _ => negb (Ascii.eqb c "/"%char)
  | EmptyString => false
  end.

Definition has_token (c : string) : bool :=
  match split_first c with Some _ => true | None => false end.

(** A [Popen] whose commands print nothing and exit with status 0. *)
Definition popen_silent (_ : gmap string string) (_ : string) : string * string * Z :=
  ("", "", 0%Z).

(** The pre-hook of the configuration as the list [pre_hook] runs after
    the directory hooks. *)
Definition configured_hook (o : option string) : list string :=
  match o with
  | Some c => if truthy o then [c] else []
  | None => []
  end.

(** A file system in which no directory exists. *)
Definition listdir_missing (_ : string) : option (list string) := None.

(** A PATH search that finds nothing, and a file system holding one
    non-executable file. *)
Definition exe_exists_none (_ : gmap string string) (_ : string) : bool := false.
Definition path_exists_nonexec (p : string) : bool := String.eqb p "/opt/hooks/nonexec.sh".
Definition state_with_path : St := mkSt {[ "PATH" := "/usr/bin:/bin" ]} ∅ [] [].

(** A deploy-hook directory holding the single executable [reload.sh],
    and a configuration whose renew-hook is the path of that script. *)
Definition deploy_dir : string := "/etc/letsencrypt/renewal-hooks/deploy".
Definition listdir_deploy (d : string) : option (list string) :=
  if String.eqb d deploy_dir then Some ["reload.sh"] else None.
Definition all_exe (_ : string) : bool := true.
Definition renew_config (dry : bool) : Config :=
  mkConfig "renew" true dry None None None (Some (deploy_dir ++ "/reload.sh"))
    "/etc/letsencrypt/renewal-hooks/pre" "/etc/letsencrypt/renewal-hooks/post" deploy_dir.

(** The hooks [list_hooks] finds in a directory when directory hooks are
    enabled (no hooks when they are disabled or the listing fails). *)
Definition listed_hooks (listdir : string -> option (list string))
    (is_exe : string -> bool) (enabled : bool) (d : string) : list string :=
  if enabled then
    match listdir d with
    | Some fs => py_sorted (List.filter is_exe (map (path_join d) fs))
    | None => []
    end
  else [].

(** A configuration with a post-hook whose post-hook directory is the
    deploy directory above. *)
Definition post_config (dirhooks : bool) (verb_ : string) : Config :=
  mkConfig verb_ dirhooks false None (Some "systemctl reload nginx") None None
    "/etc/letsencrypt/renewal-hooks/pre" deploy_dir deploy_dir.

(** A configuration with a deploy-hook and no renew-hook. *)
Definition deploy_config (dry : bool) : Config :=
  mkConfig "certonly" false dry None None (Some "systemctl reload nginx") None
    "/etc/letsencrypt/renewal-hooks/pre" "/etc/letsencrypt/renewal-hooks/post" deploy_dir.

(** A renew configuration whose renew-hook is not in the deploy directory. *)
Definition renew_config_other : Config :=
  mkConfig "renew" true false None None None (Some "systemctl reload nginx")
    "/etc/letsencrypt/renewal-hooks/pre" "/etc/letsencrypt/renewal-hooks/post" deploy_dir.

(** An [exe_exists] that finds commands only once [/usr/sbin] is on the
    PATH, and a [Popen] whose command fails with a message on stderr. *)
Definition exe_in_sbin (e : gmap string string) (_ : string) : bool :=
  match e !! "PATH" with Some p => str_contains "/usr/sbin" p | None => false end.
Definition popen_fail (_ : gmap string string) (_ : string) : string * string * Z :=
  ("", "nginx: configuration file test failed", 1%Z).


(** Diagnostic log records: DEBUG and WARNING, as [path_surgery] writes. *)
Definition is_diag (ev : event) : bool :=
  match ev with Log Debug _ | Log Warning _ => true | _ => false end.

Definition str_le (a b : string) : Prop := String.leb a b = true.

Definition initial_state : St := mkSt ∅ ∅ [] [].

(** ** Sanity checks of the string helpers *)

Example split_first_ex : split_first "  echo hi there" = Some "echo".
Proof. reflexivity. Qed.
Example split_first_blank : split_first " " = None.
Proof. reflexivity. Qed.
Example path_join_ex : path_join "/etc/letsencrypt/renewal-hooks/pre" "a.sh"
                       = "/etc/letsencrypt/renewal-hooks/pre/a.sh".
Proof. reflexivity. Qed.
Example basename_ex : basename "/usr/bin/nginx" = "nginx".
Proof. reflexivity. Qed.
Example py_sorted_ex : py_sorted ["b.sh"; "a.sh"; "a"] = ["a"; "a.sh"; "b.sh"].
Proof. reflexivity. Qed.

(** ** General lemmas *)

Lemma execs_app t1 t2 : execs (t1 ++ t2) = (execs t1 ++ execs t2)%list.
Proof. unfold execs. apply flat_map_app. Qed.

Lemma execs_cons_exec c e l : execs (Exec c e :: l) = c :: execs l.
Proof. reflexivity. Qed.
Lemma execs_cons_log lvl m l : execs (Log lvl m :: l) = execs l.
Proof. reflexivity. Qed.

Lemma execs_log t lvl m : execs (t ++ [Log lvl m]) = execs t.
Proof. rewrite execs_app. simpl. apply app_nil_r. Qed.

Ltac unfold_M :=
  unfold bind, ret, raise, get, put, emit, log, set_env,
    add_already, append_eventually in *; simpl in *.

(** [execute] changes nothing but the trace; it launches exactly the given
    command, and it raises only [IndexError], exactly when the command has no
    first token. *)
Lemma execute_frame popen c s :
  let '(r, s') := execute popen c s in
  environ s' = environ s /\ already s' = already s /\
  eventually s' = eventually s /\
  (exists l, trace s' = (trace s ++ Exec c (environ s) :: l)%list /\ execs l = []) /\
  match r with
  | inl e => e = IndexError /\ split_first c = None
  | inr _ => split_first c <> None
  end.
Proof.
  unfold execute. unfold_M.
  destruct (popen (environ s) c) as [[out err] rc]. unfold_M.
  destruct (split_first c) as [tok|] eqn:E.
  - destruct (nonempty out), (negb (rc =? 0)%Z), (nonempty err); unfold_M;
      repeat split; try reflexivity; try congruence;
      eexists; (split; [rewrite <- ?app_assoc; simpl; reflexivity | reflexivity]).
  - repeat split; try reflexivity. exists []. auto.
Qed.

(** For a command with a first token, [execute] returns the captured
    (stderr, stdout) of [Popen] and reports a non-zero exit status and any
    stderr text as error-level log records instead of raising. *)
Lemma execute_swallows popen c tok s :
  split_first c = Some tok ->
  let '(out, err, rc) := popen (environ s) c in
  let '(r, s') := execute popen c s in
  r = inr (err, out) /\
  ((rc =? 0)%Z = false ->
   In (Log Error ("Hook command " ++ dquote ++ c ++ dquote
                  ++ " returned error code " ++ pretty rc)) (trace s')) /\
  (nonempty err = true ->
   In (Log Error ("Error output from " ++ basename tok ++ ":" ++ nl ++ err)) (trace s')).
Proof.
  intros Hc. unfold execute. unfold_M.
  destruct (popen (environ s) c) as [[out err] rc]. unfold_M. rewrite Hc.
  destruct (nonempty out), (rc =? 0)%Z eqn:Erc, (nonempty err); unfold_M;
    (repeat split); intros; try discriminate;
    repeat (rewrite in_app_iff; simpl); auto.
Qed.

(** C7 (code_bug).  [execute] computes the name it logs under with
    [shell_cmd.split(None, 1)[0]], which raises [IndexError] for a command
    made of whitespace only, after [Popen] has already run it. *)
Theorem execute_blank_raises popen s :
  execute popen " " s =
  (inl IndexError,
   mkSt (environ s) (already s) (eventually s) (trace s ++ [Exec " " (environ s)])).
Proof.
  unfold execute. unfold_M.
  destruct (popen (environ s) " ") as [[out err] rc]. reflexivity.
Qed.

(** C5.  In a dry run [_run_deploy_hook] launches nothing, leaves the
    environment alone and logs one warning naming the skipped command. *)
Theorem run_deploy_hook_dry_run popen command domains lineage_path s :
  let '(r, s') := run_deploy_hook popen command domains lineage_path true s in
  r = inr tt /\
  execs (trace s') = execs (trace s) /\
  environ s' = environ s /\
  trace s' = (trace s ++ [Log Warning ("Dry run: skipping deploy hook command: " ++ command)])%list.
Proof.
  unfold run_deploy_hook. unfold_M. repeat split. apply execs_log.
Qed.

(** C10.  Outside a dry run [_run_deploy_hook] sets [RENEWED_DOMAINS] to the
    domains joined by one space and [RENEWED_LINEAGE] to the lineage path,
    launches the command under that environment, and leaves both entries set
    afterwards; no other entry of [os.environ] changes. *)
Theorem run_deploy_hook_environ popen command domains lineage_path s :
  let env := <[ "RENEWED_LINEAGE" := lineage_path ]>
               (<[ "RENEWED_DOMAINS" := String.concat " " domains ]> (environ s)) in
  let '(r, s') := run_deploy_hook popen command domains lineage_path false s in
  environ s' = env /\
  env !! "RENEWED_DOMAINS" = Some (String.concat " " domains) /\
  env !! "RENEWED_LINEAGE" = Some lineage_path /\
  delete "RENEWED_LINEAGE" (delete "RENEWED_DOMAINS" env)
    = delete "RENEWED_LINEAGE" (delete "RENEWED_DOMAINS" (environ s)) /\
  (exists l, trace s' = (trace s ++ Log Info ("Running deploy-hook command: " ++ command)
                                   :: Exec command env :: l)%list
             /\ execs l = []).
Proof.
  unfold run_deploy_hook, run_hook. unfold_M.
  set (s1 := mkSt _ _ _ _).
  pose proof (execute_frame popen command s1) as Hx.
  destruct (execute popen command s1) as [r s2]. unfold_M.
  destruct Hx as (Henv & _ & _ & (l & Htr & Hl) & _).
  destruct r as [e|p]; unfold_M; rewrite Henv; simpl;
    (split; [reflexivity|]);
    (split; [rewrite lookup_insert_ne by discriminate; apply lookup_insert_eq|]);
    (split; [apply lookup_insert_eq|]);
    (split; [rewrite (delete_insert_ne _ "RENEWED_DOMAINS") by discriminate;
             rewrite !delete_insert_eq; reflexivity|]);
    exists l; rewrite Htr; simpl; rewrite <- app_assoc; auto.
Qed.

(** Calling [_run_pre_hook_if_necessary] twice on a fresh command with a
    first token launches it once; the second call only logs a skip. *)
Lemma run_pre_hook_twice_tokenized popen c s :
  c ∉ already s -> split_first c <> None ->
  let '(r1, s1) := run_pre_hook_if_necessary popen c s in
  let '(r2, s2) := run_pre_hook_if_necessary popen c s1 in
  r1 = inr tt /\ r2 = inr tt /\
  execs (trace s2) = (execs (trace s) ++ [c])%list /\
  c ∈ already s2 /\
  trace s2 = (trace s1 ++ [Log Info ("Pre-hook command already run, skipping: " ++ c)])%list.
Proof.
  intros Hnot Htok. unfold run_pre_hook_if_necessary, run_hook. unfold_M.
  destruct (decide (c ∈ already s)) as [|_]; [contradiction|]. unfold_M.
  set (s1 := mkSt _ _ _ _).
  pose proof (execute_frame popen c s1) as Hx.
  destruct (execute popen c s1) as [[e|p] s2]; unfold_M;
    destruct Hx as (_ & Ha & _ & (l & Htr & Hl) & Hr).
  - destruct Hr; contradiction.
  - destruct (decide (c ∈ {[c]} ∪ already s2)) as [_|Hn]; [|set_solver]. unfold_M.
    repeat split; try set_solver.
    rewrite execs_log, Htr, !execs_app, execs_cons_exec, Hl, execs_cons_log.
    simpl. rewrite app_nil_r. reflexivity.
Qed.

(** C1 (code_bug).  For the command [" "] the first call raises
    [IndexError] out of [execute] after launching it, before the command is
    recorded in [pre_hook.already]; a second call therefore launches it
    again. *)
Theorem run_pre_hook_blank_runs_twice popen :
  let '(r1, s1) := run_pre_hook_if_necessary popen " " initial_state in
  let '(r2, s2) := run_pre_hook_if_necessary popen " " s1 in
  r1 = inl IndexError /\ r2 = inl IndexError /\
  execs (trace s2) = [" "; " "] /\ " " ∉ already s2.
Proof.
  unfold run_pre_hook_if_necessary, run_hook, execute, initial_state. unfold_M.
  destruct (decide (" " ∈ (∅ : gset string))) as [Hin|_]; [set_solver|]. unfold_M.
  destruct (popen ∅ " ") as [[out err] rc]. unfold_M.
  destruct (decide (" " ∈ (∅ : gset string))) as [Hin|_]; [set_solver|]. unfold_M.
  destruct (popen ∅ " ") as [[out' err'] rc']. unfold_M.
  repeat split; set_solver.
Qed.

(** ** The deferred post-hook queue *)

Lemma run_eventually_spec c s :
  run_eventually c s =
  (inr tt, mkSt (environ s) (already s)
             (if in_dec string_dec c (eventually s) then eventually s
              else (eventually s ++ [c])%list)
             (trace s)).
Proof.
  destruct s as [e a q t]. unfold run_eventually. unfold_M.
  destruct (in_dec string_dec c q); reflexivity.
Qed.

(** A sequence of [_run_eventually] calls appends the first occurrences of
    the commands not yet queued, in call order, and touches nothing else. *)
Lemma enqueue_all_spec l s :
  mapM_ run_eventually l s =
  (inr tt, mkSt (environ s) (already s)
             (eventually s ++ first_occurrences (eventually s) l)%list (trace s)).
Proof.
  revert s. induction l as [|x r IH]; intros s.
  - destruct s; simpl. unfold ret. rewrite app_nil_r. reflexivity.
  - simpl. unfold bind. rewrite run_eventually_spec, IH. simpl.
    destruct (in_dec string_dec x (eventually s)); [reflexivity|].
    rewrite <- app_assoc. reflexivity.
Qed.


(** When every queued command has a first token, the flush launches exactly
    the queued commands, in queue order. *)
Lemma flush_tokenized popen l s :
  forallb has_token l = true ->
  let '(r, s') := mapM_ (run_saved_post_hook popen) l s in
  r = inr tt /\ execs (trace s') = (execs (trace s) ++ l)%list.
Proof.
  revert s. induction l as [|x r IH]; intros s Hall; simpl; unfold_M.
  - rewrite app_nil_r. auto.
  - apply andb_prop in Hall as [Hx Hr].
    unfold run_saved_post_hook, run_hook. unfold_M.
    set (s1 := mkSt _ _ _ _).
    pose proof (execute_frame popen x s1) as Hex.
    destruct (execute popen x s1) as [[e|p] s2]; unfold_M;
      destruct Hex as (_ & _ & _ & (l1 & Htr & Hl) & Hres).
    + destruct Hres as [_ Hn]. unfold has_token in Hx. rewrite Hn in Hx. discriminate.
    + specialize (IH s2 Hr). destruct (mapM_ _ r s2) as [r3 s3].
      destruct IH as [-> IH]. split; [reflexivity|].
      rewrite IH, Htr, !execs_app, execs_cons_exec, Hl. simpl.
      rewrite ?app_nil_r, <- ?app_assoc. reflexivity.
Qed.

(** C2 (code_bug).  The queue built by [_run_eventually] holds the first
    occurrences in call order, but the flush stops at the first queued
    command made of whitespace only: [execute] raises [IndexError] for it
    (see [execute_blank_raises]) and the commands queued after it never
    run. *)
Theorem saved_post_hooks_blank_stops_flush popen :
  let '(_, s1) := mapM_ run_eventually [" "; "a"; " "] initial_state in
  let '(r2, s2) := run_saved_post_hooks popen s1 in
  eventually s1 = first_occurrences [] [" "; "a"; " "] /\
  eventually s1 = [" "; "a"] /\
  r2 = inl IndexError /\
  execs (trace s2) = [" "].
Proof.
  rewrite enqueue_all_spec. simpl.
  unfold run_saved_post_hooks, run_saved_post_hook, run_hook, execute. unfold_M.
  unfold_M.
  match goal with |- context [popen ?e " "] => destruct (popen e " ") as [[out err] rc] end.
  unfold_M. repeat split.
Qed.




(** ** Directory listing *)

Lemma leb_false_flip a b : String.leb a b = false -> String.leb b a = true.
Proof. intros H. destruct (String.leb_total a b) as [H'|H']; congruence. Qed.

Lemma insert_sorted_hd a x l :
  HdRel str_le a l -> str_le a x -> HdRel str_le a (insert_sorted x l).
Proof.
  intros Hd Hax. destruct l as [|b r]; simpl.
  - constructor. exact Hax.
  - destruct (String.leb x b); constructor; [exact Hax|]. inversion Hd; assumption.
Qed.

Lemma insert_sorted_sorted x l : Sorted str_le l -> Sorted str_le (insert_sorted x l).
Proof.
  induction l as [|b r IH]; intros Hs; simpl.
  - repeat constructor.
  - destruct (String.leb x b) eqn:E.
    + constructor; [exact Hs|]. constructor. exact E.
    + inversion Hs; subst. constructor; [apply IH; assumption|].
      apply insert_sorted_hd; [assumption|]. apply leb_false_flip. exact E.
Qed.

Lemma py_sorted_sorted l : Sorted str_le (py_sorted l).
Proof. induction l; simpl; [constructor|]. apply insert_sorted_sorted. assumption. Qed.

Lemma insert_sorted_perm x l : Permutation (insert_sorted x l) (x :: l).
Proof.
  induction l as [|b r IH]; simpl; [reflexivity|].
  destruct (String.leb x b); [reflexivity|].
  rewrite IH. apply perm_swap.
Qed.

Lemma py_sorted_perm l : Permutation (py_sorted l) l.
Proof.
  induction l as [|x r IH]; simpl; [reflexivity|].
  rewrite insert_sorted_perm, IH. reflexivity.
Qed.

(** C3 (counterexample).  [list_hooks] on a directory that does not exist
    raises the [OSError] of [os.listdir]. *)
Lemma list_hooks_missing_dir_cex :
  list_hooks listdir_missing (fun _ => true) "/etc/letsencrypt/renewal-hooks/deploy"
    initial_state
  = (inl (OSError "/etc/letsencrypt/renewal-hooks/deploy"), initial_state).
Proof. reflexivity. Qed.

(** C3 (amended).  [list_hooks] returns the empty list for an existing empty
    directory and raises [OSError] for a missing one; it changes no state. *)
Theorem list_hooks_empty_or_missing listdir is_exe d s :
  listdir d = Some [] \/ listdir d = None ->
  list_hooks listdir is_exe d s =
  (match listdir d with Some _ => inr [] | None => inl (OSError d) end, s).
Proof. intros [H|H]; unfold list_hooks; rewrite H; reflexivity. Qed.

Lemma list_hooks_empty_or_missing_witness :
  (listdir_missing "/etc/letsencrypt/renewal-hooks/pre" = Some []
   \/ listdir_missing "/etc/letsencrypt/renewal-hooks/pre" = None) /\
  list_hooks listdir_missing (fun _ => true) "/etc/letsencrypt/renewal-hooks/pre" initial_state
  = (inl (OSError "/etc/letsencrypt/renewal-hooks/pre"), initial_state).
Proof.
  split; [right; reflexivity|].
  apply (list_hooks_empty_or_missing listdir_missing (fun _ => true)
           "/etc/letsencrypt/renewal-hooks/pre" initial_state).
  right. reflexivity.
Defined.

(** ** Pre-hooks *)

Lemma mapM_app {A} (f : A -> M unit) l1 l2 s :
  mapM_ f (l1 ++ l2) s = (mapM_ f l1 ;;; mapM_ f l2) s.
Proof.
  revert s. induction l1 as [|x r IH]; intros s; simpl; unfold_M; [reflexivity|].
  destruct (f x s) as [[e|[]] s1]; [reflexivity|]. apply IH.
Qed.

Lemma bind_ret_unit (m : M unit) s : (m ;;; ret tt) s = m s.
Proof. unfold_M. destruct (m s) as [[e|[]] s1]; reflexivity. Qed.

Lemma configured_pre_hook_run popen o s :
  (match o with
   | Some c => if truthy o then run_pre_hook_if_necessary popen c else ret tt
   | None => ret tt
   end) s = mapM_ (run_pre_hook_if_necessary popen) (configured_hook o) s.
Proof.
  destruct o as [c|]; [|reflexivity].
  unfold configured_hook. destruct (truthy (Some c)); [|reflexivity].
  symmetry. apply bind_ret_unit.
Qed.

(** C9.  [pre_hook] lists the pre-hook directory only for the [renew] verb
    with directory hooks enabled, and then runs [_run_pre_hook_if_necessary]
    on the listed hooks followed by the configured pre-hook, if any;
    the listed hooks are in ascending lexicographic order. *)
Theorem pre_hook_order popen listdir is_exe config s :
  pre_hook popen listdir is_exe config s =
  (if String.eqb (verb config) "renew" && directory_hooks config then
     (hooks <- list_hooks listdir is_exe (renewal_pre_hooks_dir config) ;;
      mapM_ (run_pre_hook_if_necessary popen)
            (hooks ++ configured_hook (cfg_pre_hook config))%list) s
   else mapM_ (run_pre_hook_if_necessary popen) (configured_hook (cfg_pre_hook config)) s)
  /\
  match fst (list_hooks listdir is_exe (renewal_pre_hooks_dir config) s) with
  | inr hooks => Sorted str_le hooks
  | inl _ => True
  end.
Proof.
  split.
  - unfold pre_hook.
    destruct (String.eqb (verb config) "renew" && directory_hooks config).
    + unfold list_hooks.
      destruct (listdir (renewal_pre_hooks_dir config)) as [fs|]; unfold_M; [|reflexivity].
      rewrite mapM_app. unfold_M.
      destruct (mapM_ _ _ s) as [[e|[]] s1]; [reflexivity|].
      apply configured_pre_hook_run.
    + unfold_M. apply configured_pre_hook_run.
  - unfold list_hooks.
    destruct (listdir (renewal_pre_hooks_dir config)); simpl; [|exact I].
    apply py_sorted_sorted.
Qed.

(** ** Validation *)

(** C6 (counterexample).  A token that exists but is not executable and a
    token that does not exist raise the same exception class,
    [HookCommandNotFound]; there is no separate not-executable error. *)
Lemma validate_hook_one_error_class_cex :
  match fst (validate_hook exe_exists_none path_exists_nonexec
               (Some "/opt/hooks/nonexec.sh --quiet") "pre" state_with_path),
        fst (validate_hook exe_exists_none path_exists_nonexec
               (Some "/opt/hooks/missing.sh") "pre" state_with_path) with
  | inl e1, inl e2 => exn_class e1 = exn_class e2 /\ exn_class e1 = "HookCommandNotFound"
  | _, _ => False
  end.
Proof. vm_compute. split; reflexivity. Qed.

(** C6 (amended).  Validating an unset or empty command does nothing.  When
    validating a command with a first token fails while PATH is set, the
    error is [HookCommandNotFound] in both cases; its message says that the
    token exists but is not executable when the token exists on disk, and
    otherwise cites the kind, the token and the PATH value. *)
Theorem validate_hook_errors exe_exists path_exists shell_cmd hook_name s :
  (truthy shell_cmd = false ->
   validate_hook exe_exists path_exists shell_cmd hook_name s = (inr tt, s)) /\
  (forall tok e s' path,
   split_first (default "" shell_cmd) = Some tok ->
   validate_hook exe_exists path_exists shell_cmd hook_name s = (inl e, s') ->
   environ s' !! "PATH" = Some path ->
   e = HookCommandNotFound
         (if path_exists tok
          then hook_name ++ "-hook command " ++ tok ++ " exists, but is not executable."
          else "Unable to find " ++ hook_name ++ "-hook command " ++ tok
               ++ " in the PATH." ++ nl ++ "(PATH is " ++ path ++ ")")).
Proof.
  split.
  - intros Hf. unfold validate_hook. rewrite Hf. reflexivity.
  - intros tok e s' path Htok Hv Hp.
    unfold validate_hook in Hv. destruct (truthy shell_cmd); [|discriminate].
    rewrite Htok in Hv. unfold prog, path_surgery in Hv. unfold_M.
    repeat (match type of Hv with
            | context [extend_path ?p] => destruct (extend_path p)
            | context [if ?b then _ else _] => destruct b eqn:?
            | context [match ?x with Some _ => _ | None => _ end] => destruct x eqn:?
            end; unfold_M); try discriminate;
      injection Hv as <- <-; simpl in Hp;
      first [ congruence
            | match goal with H : path_exists tok = _ |- _ => rewrite H end;
              f_equal; f_equal; congruence ].
Qed.

Lemma validate_hook_errors_witness :
  let v := validate_hook exe_exists_none path_exists_nonexec
             (Some "/opt/hooks/nonexec.sh --quiet") "pre" state_with_path in
  split_first "/opt/hooks/nonexec.sh --quiet" = Some "/opt/hooks/nonexec.sh" /\
  v = (inl (HookCommandNotFound
              "pre-hook command /opt/hooks/nonexec.sh exists, but is not executable."),
       snd v) /\
  environ (snd v) !! "PATH" = Some "/usr/bin:/bin:/usr/sbin:/usr/local/bin:/usr/local/sbin" /\
  HookCommandNotFound "pre-hook command /opt/hooks/nonexec.sh exists, but is not executable."
  = HookCommandNotFound
      (if path_exists_nonexec "/opt/hooks/nonexec.sh"
       then "pre" ++ "-hook command " ++ "/opt/hooks/nonexec.sh" ++ " exists, but is not executable."
       else "Unable to find " ++ "pre" ++ "-hook command " ++ "/opt/hooks/nonexec.sh"
            ++ " in the PATH." ++ nl ++ "(PATH is "
            ++ "/usr/bin:/bin:/usr/sbin:/usr/local/bin:/usr/local/sbin" ++ ")").
Proof.
  intros v. split; [reflexivity|]. split; [vm_compute; reflexivity|].
  split; [vm_compute; reflexivity|].
  apply (proj2 (validate_hook_errors exe_exists_none path_exists_nonexec
                  (Some "/opt/hooks/nonexec.sh --quiet") "pre" state_with_path)
           "/opt/hooks/nonexec.sh" _ (snd v)
           "/usr/bin:/bin:/usr/sbin:/usr/local/bin:/usr/local/sbin").
  - reflexivity.
  - vm_compute. reflexivity.
  - vm_compute. reflexivity.
Defined.

(** ** Deploy hooks *)

Lemma has_token_lstrip d : has_token d = true <-> lstrip d <> EmptyString.
Proof.
  unfold has_token, split_first. destruct (lstrip d); split; congruence.
Qed.

Lemma lstrip_app d x : lstrip d <> EmptyString -> lstrip (d ++ x) <> EmptyString.
Proof.
  induction d as [|c r IH]; simpl; [congruence|].
  destruct (is_space c); [exact IH|]. intros _. discriminate.
Qed.

Lemma has_token_app d x : has_token d = true -> has_token (d ++ x) = true.
Proof. rewrite !has_token_lstrip. apply lstrip_app. Qed.

Lemma has_token_path_join d f :
  has_token d = true -> has_token (path_join d f) = true.
Proof.
  intros Hd. unfold path_join. destruct f as [|c r].
  - destruct d as [|c' r']; [discriminate|].
    destruct (match last_char _ with Some _ => _ | None => _ end);
      [exact Hd | apply has_token_app; exact Hd].
  - destruct (Ascii.eqb c "/") eqn:E.
    + apply Ascii.eqb_eq in E. subst c. reflexivity.
    + destruct d as [|c' r']; [discriminate|].
      destruct (match last_char _ with Some _ => _ | None => _ end);
        apply has_token_app; exact Hd.
Qed.

Lemma append_cancel_l a x y : a ++ x = a ++ y -> x = y.
Proof. induction a as [|c r IH]; simpl; [auto|]. intros H. injection H. exact IH. Qed.

Lemma path_join_inj d f1 f2 :
  has_token d = true -> entry_ok f1 = true -> entry_ok f2 = true ->
  path_join d f1 = path_join d f2 -> f1 = f2.
Proof.
  intros Hd H1 H2 H.
  destruct f1 as [|c1 r1]; [discriminate|]. destruct f2 as [|c2 r2]; [discriminate|].
  simpl in H1, H2. apply negb_true_iff in H1, H2.
  unfold path_join in H. rewrite H1, H2 in H.
  destruct d as [|c r]; [discriminate|].
  destruct (match last_char _ with Some _ => _ | None => _ end).
  - exact (append_cancel_l _ _ _ H).
  - apply append_cancel_l in H. injection H; intros; subst; reflexivity.
Qed.

Lemma NoDup_map_on {A B} (f : A -> B) (l : list A) :
  List.NoDup l -> (forall x y, In x l -> In y l -> f x = f y -> x = y) -> List.NoDup (map f l).
Proof.
  induction l as [|x r IH]; intros Hn Hinj; simpl; [constructor|].
  inversion Hn as [|? ? Hx Hr]; subst. constructor.
  - intros Hin. apply in_map_iff in Hin as (y & Hy & Hyr).
    assert (y = x) by (apply Hinj; simpl; auto). subst. contradiction.
  - apply IH; [exact Hr|]. intros a b Ha Hb. apply Hinj; simpl; auto.
Qed.

(** The hooks [list_hooks] returns from a real directory listing (distinct
    names without a leading slash) are distinct and all have a first token. *)
Lemma dir_hooks_ok is_exe d fs :
  has_token d = true -> List.NoDup fs -> forallb entry_ok fs = true ->
  List.NoDup (py_sorted (List.filter is_exe (map (path_join d) fs))) /\
  forallb has_token (py_sorted (List.filter is_exe (map (path_join d) fs))) = true.
Proof.
  intros Hd Hn Hok. split.
  - eapply Permutation_NoDup; [symmetry; apply py_sorted_perm|].
    apply List.NoDup_filter. apply NoDup_map_on; [exact Hn|].
    intros x y Hx Hy. rewrite forallb_forall in Hok.
    apply path_join_inj; auto.
  - apply forallb_forall. intros x Hx.
    apply (Permutation_in _ (py_sorted_perm _)) in Hx.
    apply List.filter_In in Hx as [Hx _]. apply in_map_iff in Hx as (f & <- & _).
    apply has_token_path_join. exact Hd.
Qed.

Lemma run_deploy_hook_spec popen c domains lineage_path dry s :
  has_token c = true ->
  let '(r, s') := run_deploy_hook popen c domains lineage_path dry s in
  r = inr tt /\
  execs (trace s') = (execs (trace s) ++ (if dry then [] else [c]))%list.
Proof.
  intros Hc. unfold run_deploy_hook. destruct dry.
  - unfold_M. rewrite execs_log, app_nil_r. auto.
  - unfold run_hook. unfold_M.
    set (s1 := mkSt _ _ _ _).
    pose proof (execute_frame popen c s1) as Hx.
    destruct (execute popen c s1) as [[e|p] s2]; unfold_M;
      destruct Hx as (_ & _ & _ & (l & Htr & Hl) & Hr).
    + destruct Hr as [_ Hn]. unfold has_token in Hc. rewrite Hn in Hc. discriminate.
    + split; [reflexivity|]. rewrite Htr, !execs_app, execs_cons_exec, Hl. simpl.
      rewrite ?app_nil_r. reflexivity.
Qed.

Lemma run_dir_deploy_hooks_spec popen hooks domains lineage_path dry acc s :
  forallb has_token hooks = true ->
  let '(r, s') := run_dir_deploy_hooks popen hooks domains lineage_path dry acc s in
  (exists X, r = inr X /\ forall x, In x hooks \/ x ∈ acc -> x ∈ X) /\
  execs (trace s') = (execs (trace s) ++ (if dry then [] else hooks))%list.
Proof.
  revert acc s. induction hooks as [|h r IH]; intros acc s Hall; simpl.
  - unfold_M. split; [exists acc; split; [reflexivity|]; intros x [[]|Hx]; exact Hx|].
    destruct dry; rewrite app_nil_r; reflexivity.
  - apply andb_prop in Hall as [Hh Hr]. unfold bind.
    pose proof (run_deploy_hook_spec popen h domains lineage_path dry s Hh) as Hd.
    destruct (run_deploy_hook popen h domains lineage_path dry s) as [r1 s1].
    destruct Hd as [-> Hx1].
    specialize (IH ({[h]} ∪ acc) s1 Hr).
    destruct (run_dir_deploy_hooks popen r domains lineage_path dry ({[h]} ∪ acc) s1) as [r2 s2].
    destruct IH as [(X & -> & HX) Hx2]. split.
    + exists X. split; [reflexivity|]. intros x [[<-|Hx]|Hx]; apply HX; set_solver.
    + rewrite Hx2, Hx1, <- app_assoc. destruct dry; reflexivity.
Qed.

(** C4 (counterexample).  In a dry run the renew-hook that is also a
    directory hook is skipped with a message, but the Executor never runs
    it: it is launched zero times, not once. *)
Lemma renew_hook_dry_run_cex :
  let '(r, s') := renew_hook popen_silent listdir_deploy all_exe (renew_config true)
                    ["example.com"] "/etc/letsencrypt/live/example.com" initial_state in
  r = inr tt /\
  count_occ string_dec (execs (trace s')) (deploy_dir ++ "/reload.sh") = 0 /\
  In (Log Info ("Skipping deploy-hook " ++ squote ++ deploy_dir ++ "/reload.sh" ++ squote
                ++ " as it was already run.")) (trace s').
Proof. vm_compute. split; [reflexivity|]. split; [reflexivity|]. right. left. reflexivity. Qed.

(** C4 (amended).  In a [renew_hook] pass with directory hooks enabled over
    a real directory listing, a configured renew-hook equal to one of the
    listed deploy-hook paths is not run again: a skip message is logged, and
    the Executor runs that string exactly once outside a dry run and never in
    a dry run. *)
Theorem renew_hook_dir_dedup popen listdir is_exe config domains lineage_path s fs rh :
  directory_hooks config = true ->
  has_token (renewal_deploy_hooks_dir config) = true ->
  listdir (renewal_deploy_hooks_dir config) = Some fs ->
  List.NoDup fs -> forallb entry_ok fs = true ->
  cfg_renew_hook config = Some rh ->
  In rh (py_sorted (List.filter is_exe (map (path_join (renewal_deploy_hooks_dir config)) fs))) ->
  let '(r, s') := renew_hook popen listdir is_exe config domains lineage_path s in
  r = inr tt /\
  count_occ string_dec (execs (trace s')) rh
    = (count_occ string_dec (execs (trace s)) rh + (if dry_run config then 0 else 1))%nat /\
  (exists t, trace s' = (t ++ [Log Info ("Skipping deploy-hook " ++ squote ++ rh ++ squote
                                          ++ " as it was already run.")])%list).
Proof.
  intros Hdir Hd Hls Hn Hok Hrh Hin.
  destruct (dir_hooks_ok is_exe _ fs Hd Hn Hok) as [Hnd Htok].
  set (hooks := py_sorted _) in *.
  unfold renew_hook. rewrite Hdir. unfold list_hooks. rewrite Hls. unfold_M.
  fold hooks.
  pose proof (run_dir_deploy_hooks_spec popen hooks domains lineage_path (dry_run config) ∅ s Htok)
    as Hrun.
  destruct (run_dir_deploy_hooks popen hooks domains lineage_path (dry_run config) ∅ s)
    as [r1 s1].
  destruct Hrun as [(X & -> & HX) Hx]. rewrite Hrh.
  assert (Hrt : truthy (Some rh) = true).
  { rewrite forallb_forall in Htok. specialize (Htok rh Hin).
    destruct rh; [discriminate|reflexivity]. }
  rewrite Hrt.
  destruct (decide (rh ∈ X)) as [_|Hnot]; [|exfalso; apply Hnot, HX; left; exact Hin].
  unfold_M. split; [reflexivity|]. split; [|eexists; reflexivity].
  rewrite execs_log, Hx, count_occ_app.
  destruct (dry_run config); simpl; [reflexivity|].
  rewrite (proj1 (NoDup_count_occ' string_dec hooks) Hnd rh Hin). reflexivity.
Qed.

Lemma renew_hook_dir_dedup_witness :
  let config := renew_config false in
  let fs := ["reload.sh"] in
  directory_hooks config = true /\
  has_token (renewal_deploy_hooks_dir config) = true /\
  listdir_deploy (renewal_deploy_hooks_dir config) = Some fs /\
  List.NoDup fs /\ forallb entry_ok fs = true /\
  cfg_renew_hook config = Some (deploy_dir ++ "/reload.sh") /\
  In (deploy_dir ++ "/reload.sh")
     (py_sorted (List.filter all_exe (map (path_join (renewal_deploy_hooks_dir config)) fs))) /\
  let '(r, s') := renew_hook popen_silent listdir_deploy all_exe config
                    ["example.com"] "/etc/letsencrypt/live/example.com" initial_state in
  r = inr tt /\
  count_occ string_dec (execs (trace s')) (deploy_dir ++ "/reload.sh")
    = (count_occ string_dec (execs (trace initial_state)) (deploy_dir ++ "/reload.sh")
       + (if dry_run config then 0 else 1))%nat /\
  (exists t, trace s' = (t ++ [Log Info ("Skipping deploy-hook " ++ squote ++ deploy_dir
                                          ++ "/reload.sh" ++ squote
                                          ++ " as it was already run.")])%list).
Proof.
  intros config fs.
  assert (Hn : List.NoDup fs) by (constructor; [simpl; tauto | constructor]).
  assert (Hin : In (deploy_dir ++ "/reload.sh")
     (py_sorted (List.filter all_exe (map (path_join (renewal_deploy_hooks_dir config)) fs))))
    by (vm_compute; left; reflexivity).
  do 7 (split; [first [reflexivity | assumption] |]).
  exact (renew_hook_dir_dedup popen_silent listdir_deploy all_exe config
           ["example.com"] "/etc/letsencrypt/live/example.com" initial_state fs
           (deploy_dir ++ "/reload.sh")
           eq_refl eq_refl eq_refl Hn eq_refl eq_refl Hin).
Defined.

(** * Further properties of hooks.py *)

(** ** list_hooks *)

(** [list_hooks] on an existing directory returns, in ascending order,
    exactly the joined paths of the listed entries that are executable. *)
Theorem list_hooks_members listdir is_exe d fs s :
  listdir d = Some fs ->
  exists hooks,
    list_hooks listdir is_exe d s = (inr hooks, s) /\
    Sorted str_le hooks /\
    (forall p, In p hooks <-> is_exe p = true /\ exists f, In f fs /\ p = path_join d f).
Proof.
  intros Hl. unfold list_hooks. rewrite Hl.
  eexists. split; [reflexivity|]. split; [apply py_sorted_sorted|].
  intros p. split.
  - intros Hp. apply (Permutation_in _ (py_sorted_perm _)) in Hp.
    apply List.filter_In in Hp as [Hp He]. apply in_map_iff in Hp as (f & <- & Hf).
    split; [exact He|]. exists f. auto.
  - intros [He (f & Hf & ->)]. apply (Permutation_in _ (Permutation_sym (py_sorted_perm _))).
    apply List.filter_In. split; [apply in_map; exact Hf | exact He].
Qed.

Lemma list_hooks_members_witness :
  listdir_deploy deploy_dir = Some ["reload.sh"] /\
  exists hooks,
    list_hooks listdir_deploy all_exe deploy_dir initial_state = (inr hooks, initial_state) /\
    Sorted str_le hooks /\
    (forall p, In p hooks <-> all_exe p = true /\
                 exists f, In f ["reload.sh"] /\ p = path_join deploy_dir f).
Proof.
  split; [reflexivity|].
  apply (list_hooks_members listdir_deploy all_exe deploy_dir ["reload.sh"] initial_state).
  reflexivity.
Defined.

(** For a real directory listing (distinct names, none starting with a
    slash) under a non-blank directory path, [list_hooks] returns no path
    twice, and every path it returns has a first token. *)
Theorem list_hooks_nodup listdir is_exe d fs s :
  has_token d = true -> listdir d = Some fs ->
  List.NoDup fs -> forallb entry_ok fs = true ->
  exists hooks,
    list_hooks listdir is_exe d s = (inr hooks, s) /\
    List.NoDup hooks /\ forallb has_token hooks = true.
Proof.
  intros Hd Hl Hn Hok. unfold list_hooks. rewrite Hl.
  eexists. split; [reflexivity|]. apply dir_hooks_ok; assumption.
Qed.

Lemma list_hooks_nodup_witness :
  has_token deploy_dir = true /\ listdir_deploy deploy_dir = Some ["reload.sh"] /\
  List.NoDup ["reload.sh"] /\ forallb entry_ok ["reload.sh"] = true /\
  exists hooks,
    list_hooks listdir_deploy all_exe deploy_dir initial_state = (inr hooks, initial_state) /\
    List.NoDup hooks /\ forallb has_token hooks = true.
Proof.
  assert (Hn : List.NoDup ["reload.sh"]) by (constructor; [simpl; tauto | constructor]).
  do 4 (split; [first [reflexivity | exact Hn] |]).
  exact (list_hooks_nodup listdir_deploy all_exe deploy_dir ["reload.sh"] initial_state
           eq_refl eq_refl Hn eq_refl).
Defined.

(** ** post_hook *)

Lemma first_occurrences_app q l1 l2 :
  first_occurrences q (l1 ++ l2) =
  (first_occurrences q l1 ++ first_occurrences (q ++ first_occurrences q l1) l2)%list.
Proof.
  revert q. induction l1 as [|x r IH]; intros q; simpl.
  - rewrite app_nil_r. reflexivity.
  - destruct (in_dec string_dec x q); [apply IH|].
    rewrite IH, <- app_assoc. reflexivity.
Qed.

Lemma first_occurrences_seen q l :
  (forall x, In x l -> In x q) -> first_occurrences q l = [].
Proof.
  revert q. induction l as [|x r IH]; intros q H; simpl; [reflexivity|].
  destruct (in_dec string_dec x q) as [_|n]; [|exfalso; apply n, H; left; reflexivity].
  apply IH. intros y Hy. apply H. right. exact Hy.
Qed.

Lemma first_occurrences_cover q l x :
  In x l -> In x (q ++ first_occurrences q l)%list.
Proof.
  revert q. induction l as [|y r IH]; intros q Hx; [destruct Hx|]. simpl.
  destruct (in_dec string_dec y q) as [Hy|Hy].
  - destruct Hx as [<-|Hx]; [apply in_or_app; left; exact Hy | apply IH; exact Hx].
  - destruct Hx as [<-|Hx]; [apply in_or_app; right; left; reflexivity|].
    specialize (IH (q ++ [y])%list Hx). rewrite <- app_assoc in IH. exact IH.
Qed.

Lemma configured_run (f : string -> M unit) o s :
  (match o with
   | Some c => if truthy o then f c else ret tt
   | None => ret tt
   end) s = mapM_ f (configured_hook o) s.
Proof.
  destruct o as [c|]; [|reflexivity].
  unfold configured_hook. destruct (truthy (Some c)); [|reflexivity].
  symmetry. apply bind_ret_unit.
Qed.

Lemma post_hook_renew_queue popen listdir is_exe config s :
  String.eqb (verb config) "renew" = true ->
  (directory_hooks config = false \/ listdir (renewal_post_hooks_dir config) <> None) ->
  post_hook popen listdir is_exe config s =
  (inr tt, mkSt (environ s) (already s)
     (eventually s ++ first_occurrences (eventually s)
        (listed_hooks listdir is_exe (directory_hooks config) (renewal_post_hooks_dir config)
         ++ configured_hook (cfg_post_hook config)))%list
     (trace s)).
Proof.
  intros Hv Hd. unfold post_hook. rewrite Hv. unfold listed_hooks.
  destruct (directory_hooks config).
  - destruct Hd as [Hd|Hd]; [discriminate|].
    unfold list_hooks. destruct (listdir (renewal_post_hooks_dir config)) as [fs|];
      [|contradiction]. unfold_M.
    rewrite enqueue_all_spec, configured_run, enqueue_all_spec. simpl.
    rewrite first_occurrences_app, app_assoc. reflexivity.
  - unfold_M. rewrite configured_run, enqueue_all_spec. reflexivity.
Qed.

(** In [renew] mode [post_hook] runs nothing and logs nothing.  When the
    directory listing succeeds (or directory hooks are off) it appends to
    the queue the first occurrences, not yet queued, of the directory hooks
    followed by the configured post-hook. *)
Theorem post_hook_renew_defers popen listdir is_exe config s :
  String.eqb (verb config) "renew" = true ->
  (directory_hooks config = false \/ listdir (renewal_post_hooks_dir config) <> None) ->
  let '(r, s') := post_hook popen listdir is_exe config s in
  r = inr tt /\ trace s' = trace s /\ environ s' = environ s /\
  eventually s' =
    (eventually s ++ first_occurrences (eventually s)
       (listed_hooks listdir is_exe (directory_hooks config) (renewal_post_hooks_dir config)
        ++ configured_hook (cfg_post_hook config)))%list.
Proof.
  intros Hv Hd. rewrite (post_hook_renew_queue popen listdir is_exe config s Hv Hd).
  repeat split.
Qed.

Lemma post_hook_renew_defers_witness :
  String.eqb (verb (post_config true "renew")) "renew" = true /\
  (directory_hooks (post_config true "renew") = false
   \/ listdir_deploy (renewal_post_hooks_dir (post_config true "renew")) <> None) /\
  let '(r, s') := post_hook popen_silent listdir_deploy all_exe (post_config true "renew")
                    initial_state in
  r = inr tt /\ trace s' = trace initial_state /\ environ s' = environ initial_state /\
  eventually s' =
    (eventually initial_state ++ first_occurrences (eventually initial_state)
       (listed_hooks listdir_deploy all_exe true deploy_dir
        ++ configured_hook (cfg_post_hook (post_config true "renew"))))%list.
Proof.
  assert (Hd : directory_hooks (post_config true "renew") = false
               \/ listdir_deploy (renewal_post_hooks_dir (post_config true "renew")) <> None)
    by (right; discriminate).
  split; [reflexivity|]. split; [exact Hd|].
  exact (post_hook_renew_defers popen_silent listdir_deploy all_exe (post_config true "renew")
           initial_state eq_refl Hd).
Defined.

(** Calling [post_hook] twice in [renew] mode queues nothing the second
    time: the queue after the second call equals the queue after the
    first. *)
Theorem post_hook_renew_twice popen listdir is_exe config s :
  String.eqb (verb config) "renew" = true ->
  let '(_, s1) := post_hook popen listdir is_exe config s in
  let '(_, s2) := post_hook popen listdir is_exe config s1 in
  eventually s2 = eventually s1.
Proof.
  intros Hv.
  destruct (directory_hooks config) eqn:Ed;
    [destruct (listdir (renewal_post_hooks_dir config)) as [fs|] eqn:El|].
  2: { assert (Hf : forall s0, post_hook popen listdir is_exe config s0 =
                               (inl (OSError (renewal_post_hooks_dir config)), s0)).
       { intros s0. unfold post_hook. rewrite Hv, Ed. unfold list_hooks. rewrite El.
         unfold_M. reflexivity. }
       rewrite Hf, Hf. reflexivity. }
  all: assert (Hd : directory_hooks config = false \/
                    listdir (renewal_post_hooks_dir config) <> None)
         by (first [left; exact Ed | right; rewrite El; discriminate]).
  all: rewrite (post_hook_renew_queue popen listdir is_exe config s Hv Hd);
    match goal with |- context [post_hook _ _ _ _ ?s1] =>
      rewrite (post_hook_renew_queue popen listdir is_exe config s1 Hv Hd) end;
    simpl;
    set (L := (listed_hooks _ _ _ _ ++ _)%list);
    rewrite (first_occurrences_seen (eventually s ++ first_occurrences (eventually s) L) L);
    [apply app_nil_r|];
    intros x Hx; apply first_occurrences_cover; exact Hx.
Qed.

Lemma post_hook_renew_twice_witness :
  String.eqb (verb (post_config true "renew")) "renew" = true /\
  let '(_, s1) := post_hook popen_silent listdir_deploy all_exe (post_config true "renew")
                    initial_state in
  let '(_, s2) := post_hook popen_silent listdir_deploy all_exe (post_config true "renew") s1 in
  eventually s2 = eventually s1.
Proof.
  split; [reflexivity|].
  exact (post_hook_renew_twice popen_silent listdir_deploy all_exe (post_config true "renew")
           initial_state eq_refl).
Defined.

(** Outside [renew] mode [post_hook] never touches the queue or the
    directory: it launches the configured post-hook at once, if there is
    one, and nothing else. *)
Theorem post_hook_immediate popen listdir is_exe config s :
  String.eqb (verb config) "renew" = false ->
  let '(_, s') := post_hook popen listdir is_exe config s in
  eventually s' = eventually s /\ already s' = already s /\ environ s' = environ s /\
  execs (trace s') = (execs (trace s) ++ configured_hook (cfg_post_hook config))%list.
Proof.
  intros Hv. unfold post_hook. rewrite Hv.
  destruct (cfg_post_hook config) as [[|ch r]|]; simpl;
    [unfold_M; rewrite app_nil_r; auto | | unfold_M; rewrite app_nil_r; auto].
  unfold run_hook. unfold_M.
  set (s1 := mkSt _ _ _ _).
  pose proof (execute_frame popen (String ch r) s1) as Hx.
  destruct (execute popen (String ch r) s1) as [[e|p] s2]; unfold_M;
    destruct Hx as (He & Ha & Hq & (l & Htr & Hl) & _);
    (repeat split; [exact Hq | exact Ha | exact He |]);
    rewrite Htr, !execs_app, execs_cons_exec, Hl; simpl; rewrite ?app_nil_r; reflexivity.
Qed.

Lemma post_hook_immediate_witness :
  String.eqb (verb (post_config true "certonly")) "renew" = false /\
  let '(_, s') := post_hook popen_silent listdir_missing all_exe (post_config true "certonly")
                    initial_state in
  eventually s' = eventually initial_state /\ already s' = already initial_state /\
  environ s' = environ initial_state /\
  execs (trace s') =
    (execs (trace initial_state) ++ configured_hook (cfg_post_hook (post_config true "certonly")))%list.
Proof.
  split; [reflexivity|].
  exact (post_hook_immediate popen_silent listdir_missing all_exe (post_config true "certonly")
           initial_state eq_refl).
Defined.

(** ** deploy_hook and renew_hook *)

(** [_run_deploy_hook] launches its command exactly when it is not a dry
    run, whether or not [execute] then raises; a dry run leaves the
    environment alone. *)
Lemma run_deploy_hook_execs popen c domains lineage_path dry s :
  let '(_, s') := run_deploy_hook popen c domains lineage_path dry s in
  execs (trace s') = (execs (trace s) ++ (if dry then [] else [c]))%list /\
  already s' = already s /\ eventually s' = eventually s /\
  (if dry then environ s' = environ s else True).
Proof.
  unfold run_deploy_hook. destruct dry.
  - unfold_M. rewrite execs_log, app_nil_r. auto.
  - unfold run_hook. unfold_M.
    set (s1 := mkSt _ _ _ _).
    pose proof (execute_frame popen c s1) as Hx.
    destruct (execute popen c s1) as [[e|p] s2]; unfold_M;
      destruct Hx as (_ & Ha & Hq & (l & Htr & Hl) & _);
      (repeat split; [ | exact Ha | exact Hq]);
      rewrite Htr, !execs_app, execs_cons_exec, Hl; simpl; rewrite ?app_nil_r; reflexivity.
Qed.

(** [deploy_hook] launches the configured deploy-hook, if any, and nothing
    else; in a dry run it launches nothing and leaves [os.environ] as it
    was. *)
Theorem deploy_hook_launches popen config domains lineage_path s :
  let '(_, s') := deploy_hook popen config domains lineage_path s in
  execs (trace s') =
    (execs (trace s) ++ (if dry_run config then [] else configured_hook (cfg_deploy_hook config)))%list /\
  (if dry_run config then environ s' = environ s else True).
Proof.
  unfold deploy_hook.
  destruct (cfg_deploy_hook config) as [[|ch r]|]; simpl;
    [unfold_M; destruct (dry_run config); rewrite ?app_nil_r; auto
    | | unfold_M; destruct (dry_run config); rewrite ?app_nil_r; auto].
  pose proof (run_deploy_hook_execs popen (String ch r) domains lineage_path (dry_run config) s)
    as Hx.
  destruct (run_deploy_hook _ _ _ _ _ s) as [r1 s1].
  destruct Hx as (Hx & _ & _ & He). split; [exact Hx | exact He].
Qed.

Lemma run_dir_deploy_hooks_dry popen hooks domains lineage_path acc s :
  let '(r, s') := run_dir_deploy_hooks popen hooks domains lineage_path true acc s in
  (exists X, r = inr X) /\ execs (trace s') = execs (trace s) /\ environ s' = environ s.
Proof.
  revert acc s. induction hooks as [|h r IH]; intros acc s; simpl.
  - unfold_M. eauto.
  - unfold run_deploy_hook. unfold_M.
    specialize (IH ({[h]} ∪ acc) (mkSt (environ s) (already s) (eventually s)
       (trace s ++ [Log Warning ("Dry run: skipping deploy hook command: " ++ h)])%list)).
    destruct (run_dir_deploy_hooks _ _ _ _ _ _ _) as [r2 s2].
    destruct IH as (HX & Hx & He). simpl in *.
    split; [exact HX|]. split; [rewrite Hx; apply execs_log | exact He].
Qed.

(** A dry-run [renew_hook] pass launches no command and leaves
    [os.environ] as it was, whatever the directory and the configuration. *)
Theorem renew_hook_dry_run_silent popen listdir is_exe config domains lineage_path s :
  dry_run config = true ->
  let '(_, s') := renew_hook popen listdir is_exe config domains lineage_path s in
  execs (trace s') = execs (trace s) /\ environ s' = environ s.
Proof.
  intros Hdry. unfold renew_hook. rewrite Hdry.
  destruct (directory_hooks config).
  - unfold list_hooks. destruct (listdir (renewal_deploy_hooks_dir config)) as [fs|];
      unfold_M; [|auto].
    pose proof (run_dir_deploy_hooks_dry popen
                  (py_sorted (List.filter is_exe (map (path_join (renewal_deploy_hooks_dir config)) fs)))
                  domains lineage_path ∅ s) as Hx.
    destruct (run_dir_deploy_hooks _ _ _ _ _ _ _) as [r1 s1].
    destruct Hx as ((X & ->) & Hx & He).
    destruct (cfg_renew_hook config) as [c|]; [|unfold_M; auto].
    destruct (truthy (Some c)); [|unfold_M; auto].
    destruct (decide (c ∈ X)); unfold run_deploy_hook; unfold_M;
      rewrite execs_log; auto.
  - unfold_M. destruct (cfg_renew_hook config) as [c|]; [|unfold_M; auto].
    destruct (truthy (Some c)); [|unfold_M; auto].
    destruct (decide (c ∈ (∅ : gset string))); unfold run_deploy_hook; unfold_M;
      rewrite execs_log; auto.
Qed.

Lemma renew_hook_dry_run_silent_witness :
  dry_run (renew_config true) = true /\
  let '(_, s') := renew_hook popen_silent listdir_deploy all_exe (renew_config true)
                    ["example.com"] "/etc/letsencrypt/live/example.com" initial_state in
  execs (trace s') = execs (trace initial_state) /\ environ s' = environ initial_state.
Proof.
  split; [reflexivity|].
  exact (renew_hook_dry_run_silent popen_silent listdir_deploy all_exe (renew_config true)
           ["example.com"] "/etc/letsencrypt/live/example.com" initial_state eq_refl).
Defined.

Lemma run_dir_deploy_hooks_exact popen hooks domains lineage_path acc s :
  forallb has_token hooks = true ->
  let '(r, s') := run_dir_deploy_hooks popen hooks domains lineage_path false acc s in
  (exists X, r = inr X /\ forall x, x ∈ X <-> In x hooks \/ x ∈ acc) /\
  execs (trace s') = (execs (trace s) ++ hooks)%list.
Proof.
  revert acc s. induction hooks as [|h r IH]; intros acc s Hall; cbn [run_dir_deploy_hooks].
  - unfold_M. split; [exists acc; split; [reflexivity|]; intros x; simpl; tauto|].
    rewrite app_nil_r; reflexivity.
  - apply andb_prop in Hall as [Hh Hr]. unfold bind.
    pose proof (run_deploy_hook_spec popen h domains lineage_path false s Hh) as Hd.
    destruct (run_deploy_hook popen h domains lineage_path false s) as [r1 s1].
    destruct Hd as [-> Hx1].
    specialize (IH ({[h]} ∪ acc) s1 Hr).
    destruct (run_dir_deploy_hooks popen r domains lineage_path false ({[h]} ∪ acc) s1)
      as [r2 s2].
    destruct IH as [(X & -> & HX) Hx2]. split.
    + exists X. split; [reflexivity|]. intros x.
      rewrite HX, elem_of_union, elem_of_singleton. simpl.
      split; intros H; intuition (subst; auto).
    + rewrite Hx2, Hx1, <- app_assoc. reflexivity.
Qed.

Lemma listed_hooks_tokens listdir is_exe en d :
  has_token d = true -> forallb has_token (listed_hooks listdir is_exe en d) = true.
Proof.
  intros Hd. unfold listed_hooks. destruct en; [|reflexivity].
  destruct (listdir d) as [fs|]; [|reflexivity].
  apply forallb_forall. intros x Hx.
  apply (Permutation_in _ (py_sorted_perm _)) in Hx.
  apply List.filter_In in Hx as [Hx _]. apply in_map_iff in Hx as (f & <- & _).
  apply has_token_path_join. exact Hd.
Qed.

(** Outside a dry run, a [renew_hook] pass launches the directory hooks in
    sorted order, then the configured renew-hook unless it is one of them,
    and nothing else (for a non-blank hooks directory whose listing
    succeeds, or with directory hooks off). *)
Theorem renew_hook_launches popen listdir is_exe config domains lineage_path s :
  dry_run config = false ->
  (directory_hooks config = false \/
   (has_token (renewal_deploy_hooks_dir config) = true /\
    listdir (renewal_deploy_hooks_dir config) <> None)) ->
  let hooks := listed_hooks listdir is_exe (directory_hooks config)
                 (renewal_deploy_hooks_dir config) in
  let '(_, s') := renew_hook popen listdir is_exe config domains lineage_path s in
  execs (trace s') =
    (execs (trace s) ++ hooks
     ++ List.filter (fun c => if in_dec string_dec c hooks then false else true)
          (configured_hook (cfg_renew_hook config)))%list.
Proof.
  intros Hdry Hd hooks.
  assert (Htok : forallb has_token hooks = true).
  { unfold hooks. destruct Hd as [Hd|[Ht _]];
      [unfold listed_hooks; rewrite Hd; reflexivity | apply listed_hooks_tokens; exact Ht]. }
  assert (Hrun : (if directory_hooks config then
                    hs <- list_hooks listdir is_exe (renewal_deploy_hooks_dir config) ;;
                    run_dir_deploy_hooks popen hs domains lineage_path false ∅
                  else ret ∅) s =
                 run_dir_deploy_hooks popen hooks domains lineage_path false ∅ s).
  { unfold hooks, listed_hooks. destruct (directory_hooks config); [|reflexivity].
    destruct Hd as [Hd|[_ Hd]]; [discriminate|]. unfold list_hooks.
    destruct (listdir (renewal_deploy_hooks_dir config)); [reflexivity|contradiction]. }
  unfold renew_hook. rewrite Hdry. unfold bind at 1. rewrite Hrun.
  pose proof (run_dir_deploy_hooks_exact popen hooks domains lineage_path ∅ s Htok) as Hx.
  destruct (run_dir_deploy_hooks _ _ _ _ _ _ _) as [r1 s1].
  destruct Hx as [(X & -> & HX) Hx].
  destruct (cfg_renew_hook config) as [[|ch r]|]; simpl;
    [unfold_M; rewrite Hx, app_nil_r; reflexivity | | unfold_M; rewrite Hx, app_nil_r; reflexivity].
  destruct (decide (String ch r ∈ X)) as [Hin|Hin].
  - apply HX in Hin as [Hin|Hin]; [|set_solver].
    destruct (in_dec string_dec (String ch r) hooks); [|contradiction].
    unfold_M. rewrite execs_log, Hx, app_nil_r. reflexivity.
  - destruct (in_dec string_dec (String ch r) hooks) as [Hh|_];
      [exfalso; apply Hin, HX; left; exact Hh|].
    change (let '(_, s') := run_deploy_hook popen (String ch r) domains lineage_path false s1 in
            execs (trace s') = (execs (trace s) ++ hooks ++ [String ch r])%list).
    pose proof (run_deploy_hook_execs popen (String ch r) domains lineage_path false s1) as Hy.
    destruct (run_deploy_hook _ _ _ _ _ s1) as [r2 s2].
    destruct Hy as (Hy & _). rewrite Hy, Hx, app_assoc. reflexivity.
Qed.

Lemma renew_hook_launches_witness :
  dry_run renew_config_other = false /\
  (directory_hooks renew_config_other = false \/
   (has_token (renewal_deploy_hooks_dir renew_config_other) = true /\
    listdir_deploy (renewal_deploy_hooks_dir renew_config_other) <> None)) /\
  let hooks := listed_hooks listdir_deploy all_exe (directory_hooks renew_config_other)
                 (renewal_deploy_hooks_dir renew_config_other) in
  let '(_, s') := renew_hook popen_silent listdir_deploy all_exe renew_config_other
                    ["example.com"] "/etc/letsencrypt/live/example.com" initial_state in
  execs (trace s') =
    (execs (trace initial_state) ++ hooks
     ++ List.filter (fun c => if in_dec string_dec c hooks then false else true)
          (configured_hook (cfg_renew_hook renew_config_other)))%list.
Proof.
  assert (Hd : directory_hooks renew_config_other = false \/
               (has_token (renewal_deploy_hooks_dir renew_config_other) = true /\
                listdir_deploy (renewal_deploy_hooks_dir renew_config_other) <> None))
    by (right; split; [reflexivity|discriminate]).
  split; [reflexivity|]. split; [exact Hd|].
  exact (renew_hook_launches popen_silent listdir_deploy all_exe renew_config_other
           ["example.com"] "/etc/letsencrypt/live/example.com" initial_state
           eq_refl Hd).
Defined.

(** ** Repeated pre_hook calls *)

Lemma pre_hook_eq popen listdir is_exe config s :
  pre_hook popen listdir is_exe config s =
  (if String.eqb (verb config) "renew" && directory_hooks config then
     (hooks <- list_hooks listdir is_exe (renewal_pre_hooks_dir config) ;;
      mapM_ (run_pre_hook_if_necessary popen)
            (hooks ++ configured_hook (cfg_pre_hook config))%list) s
   else mapM_ (run_pre_hook_if_necessary popen) (configured_hook (cfg_pre_hook config)) s).
Proof.
  unfold pre_hook.
  destruct (String.eqb (verb config) "renew" && directory_hooks config).
  - unfold list_hooks.
    destruct (listdir (renewal_pre_hooks_dir config)) as [fs|]; unfold_M; [|reflexivity].
    rewrite mapM_app. unfold_M.
    destruct (mapM_ _ _ s) as [[e|[]] s1]; [reflexivity|].
    apply configured_run.
  - unfold_M. apply configured_run.
Qed.

Lemma run_pre_all popen l s :
  forallb has_token l = true ->
  let '(r, s') := mapM_ (run_pre_hook_if_necessary popen) l s in
  r = inr tt /\ (forall x, In x l -> x ∈ already s') /\
  (forall x, x ∈ already s -> x ∈ already s').
Proof.
  revert s. induction l as [|c l IH]; intros s Hall; simpl; [unfold_M; split; [reflexivity|]; split; [intros _ []|auto]|].
  apply andb_prop in Hall as [Hc Hl]. unfold bind at 1.
  assert (Hstep : let '(r1, s1) := run_pre_hook_if_necessary popen c s in
                  r1 = inr tt /\ c ∈ already s1 /\ forall x, x ∈ already s -> x ∈ already s1).
  { unfold run_pre_hook_if_necessary, run_hook. unfold_M.
    destruct (decide (c ∈ already s)) as [Hin|Hin]; unfold_M; [auto|].
    set (s1 := mkSt _ _ _ _).
    pose proof (execute_frame popen c s1) as Hx.
    destruct (execute popen c s1) as [[e|p] s2]; unfold_M;
      destruct Hx as (_ & Ha & _ & _ & Hr).
    - destruct Hr as [_ Hn]. unfold has_token in Hc. rewrite Hn in Hc. discriminate.
    - rewrite Ha. simpl. split; [reflexivity|]. set_solver. }
  destruct (run_pre_hook_if_necessary popen c s) as [r1 s1].
  destruct Hstep as (-> & Hc1 & Hmono).
  specialize (IH s1 Hl). destruct (mapM_ _ l s1) as [r2 s2].
  destruct IH as (-> & Hin & Hmono2). split; [reflexivity|]. split.
  - intros x [<-|Hx]; [apply Hmono2; exact Hc1 | apply Hin; exact Hx].
  - intros x Hx. apply Hmono2, Hmono. exact Hx.
Qed.

Lemma run_pre_all_known popen l s :
  (forall x, In x l -> x ∈ already s) ->
  let '(r, s') := mapM_ (run_pre_hook_if_necessary popen) l s in
  r = inr tt /\ execs (trace s') = execs (trace s) /\ already s' = already s.
Proof.
  revert s. induction l as [|c l IH]; intros s Hall; simpl; [unfold_M; auto|].
  unfold run_pre_hook_if_necessary at 1. unfold_M.
  destruct (decide (c ∈ already s)) as [_|Hn]; [|exfalso; apply Hn, Hall; left; reflexivity].
  unfold_M.
  specialize (IH (mkSt (environ s) (already s) (eventually s)
    (trace s ++ [Log Info ("Pre-hook command already run, skipping: " ++ c)])%list)).
  destruct (mapM_ _ l _) as [r2 s2].
  destruct IH as (-> & Hx & Ha); [intros x Hx; apply Hall; right; exact Hx|].
  simpl in *. rewrite Hx, execs_log. auto.
Qed.

Lemma run_pre_list_twice popen l s :
  forallb has_token l = true ->
  let '(_, s1) := mapM_ (run_pre_hook_if_necessary popen) l s in
  let '(_, s2) := mapM_ (run_pre_hook_if_necessary popen) l s1 in
  execs (trace s2) = execs (trace s1).
Proof.
  intros Hall. pose proof (run_pre_all popen l s Hall) as H1.
  destruct (mapM_ _ l s) as [r1 s1]. destruct H1 as (_ & Hin & _).
  pose proof (run_pre_all_known popen l s1 Hin) as H2.
  destruct (mapM_ _ l s1) as [r2 s2]. destruct H2 as (_ & Hx & _). exact Hx.
Qed.

(** A second [pre_hook] call with the same configuration launches nothing:
    every hook the first call ran (or skipped) is then in
    [pre_hook.already] (for a non-blank pre-hook directory and a configured
    pre-hook with a first token). *)
Theorem pre_hook_twice popen listdir is_exe config s :
  has_token (renewal_pre_hooks_dir config) = true ->
  forallb has_token (configured_hook (cfg_pre_hook config)) = true ->
  let '(_, s1) := pre_hook popen listdir is_exe config s in
  let '(_, s2) := pre_hook popen listdir is_exe config s1 in
  execs (trace s2) = execs (trace s1).
Proof.
  intros Hd Hc.
  assert (Hform : (exists L, forallb has_token L = true /\
                    forall s0, pre_hook popen listdir is_exe config s0 =
                               mapM_ (run_pre_hook_if_necessary popen) L s0) \/
                  (exists e, forall s0, pre_hook popen listdir is_exe config s0 = (inl e, s0))).
  { destruct (String.eqb (verb config) "renew" && directory_hooks config) eqn:Eb.
    - unfold list_hooks.
      pose proof (listed_hooks_tokens listdir is_exe true _ Hd) as Ht. unfold listed_hooks in Ht.
      destruct (listdir (renewal_pre_hooks_dir config)) as [fs|] eqn:El.
      + left. eexists. split; [rewrite forallb_app, Ht, Hc; reflexivity|].
        intros s0. rewrite pre_hook_eq, Eb. unfold list_hooks. rewrite El. unfold_M. reflexivity.
      + right. eexists. intros s0. rewrite pre_hook_eq, Eb. unfold list_hooks. rewrite El.
        unfold_M. reflexivity.
    - left. exists (configured_hook (cfg_pre_hook config)). split; [exact Hc|].
      intros s0. rewrite pre_hook_eq, Eb. reflexivity. }
  destruct Hform as [(L & HL & Hf)|(e & Hf)].
  - pose proof (run_pre_list_twice popen L s HL) as H.
    rewrite Hf. destruct (mapM_ _ L s) as [r1 s1]. rewrite Hf. exact H.
  - rewrite Hf. rewrite Hf. reflexivity.
Qed.

Lemma pre_hook_twice_witness :
  let config := mkConfig "renew" true false (Some "systemctl stop nginx") None None None
                  deploy_dir "/etc/letsencrypt/renewal-hooks/post" deploy_dir in
  has_token (renewal_pre_hooks_dir config) = true /\
  forallb has_token (configured_hook (cfg_pre_hook config)) = true /\
  let '(_, s1) := pre_hook popen_silent listdir_deploy all_exe config initial_state in
  let '(_, s2) := pre_hook popen_silent listdir_deploy all_exe config s1 in
  execs (trace s2) = execs (trace s1).
Proof.
  intros config. split; [reflexivity|]. split; [reflexivity|].
  exact (pre_hook_twice popen_silent listdir_deploy all_exe config initial_state eq_refl eq_refl).
Defined.

(** ** Hook validation *)

Lemma extend_path_unchanged path :
  existsb nonempty (snd (extend_path path)) = false -> fst (extend_path path) = path.
Proof.
  unfold extend_path. simpl.
  destruct (str_contains "/usr/sbin" path); simpl;
    [destruct (str_contains "/usr/local/bin" path)|
     destruct (str_contains "/usr/local/bin" (path ++ ":" ++ "/usr/sbin"))]; simpl;
    repeat match goal with |- context [if ?b then _ else _] => destruct b; simpl end;
    first [reflexivity | discriminate].
Qed.

Lemma validate_hook_frame exe_exists path_exists cmd name s :
  let '(_, s') := validate_hook exe_exists path_exists cmd name s in
  already s' = already s /\ eventually s' = eventually s /\
  (forall k, k <> "PATH" -> environ s' !! k = environ s !! k) /\
  exists l, trace s' = (trace s ++ l)%list /\ forallb is_diag l = true.
Proof.
  unfold validate_hook, prog, path_surgery. unfold_M.
  repeat (match goal with |- context [match ?x with _ => _ end] =>
            lazymatch type of x with
            | (_ * St)%type => fail
            | _ => destruct x; unfold_M
            end end);
    (split; [reflexivity|]); (split; [reflexivity|]);
    (split; [intros k Hk; rewrite ?lookup_insert_ne by congruence; reflexivity|]);
    eexists; (split; [rewrite <- ?app_assoc; first [reflexivity | symmetry; apply app_nil_r]
                     | reflexivity]).
Qed.

(** [validate_hooks] never runs a command, whether it returns or raises:
    it leaves [pre_hook.already] and [post_hook.eventually] as they were,
    changes no entry of [os.environ] but PATH, and writes only DEBUG and
    WARNING records (those of [path_surgery]). *)
Theorem validate_hooks_no_effects exe_exists path_exists config s :
  let '(_, s') := validate_hooks exe_exists path_exists config s in
  already s' = already s /\ eventually s' = eventually s /\
  (forall k, k <> "PATH" -> environ s' !! k = environ s !! k) /\
  exists l, trace s' = (trace s ++ l)%list /\ forallb is_diag l = true /\ execs l = [].
Proof.
  assert (Hd : forall l, forallb is_diag l = true -> execs l = []).
  { induction l as [|[[] m|c e] r IH]; simpl; try discriminate; auto. }
  assert (Hc : forall s0 s1 s2,
            (already s1 = already s0 /\ eventually s1 = eventually s0 /\
             (forall k, k <> "PATH" -> environ s1 !! k = environ s0 !! k) /\
             exists l, trace s1 = (trace s0 ++ l)%list /\ forallb is_diag l = true) ->
            (already s2 = already s1 /\ eventually s2 = eventually s1 /\
             (forall k, k <> "PATH" -> environ s2 !! k = environ s1 !! k) /\
             exists l, trace s2 = (trace s1 ++ l)%list /\ forallb is_diag l = true) ->
            already s2 = already s0 /\ eventually s2 = eventually s0 /\
            (forall k, k <> "PATH" -> environ s2 !! k = environ s0 !! k) /\
            exists l, trace s2 = (trace s0 ++ l)%list /\ forallb is_diag l = true).
  { intros s0 s1 s2 (A1 & E1 & V1 & l1 & T1 & D1) (A2 & E2 & V2 & l2 & T2 & D2).
    split; [congruence|]. split; [congruence|].
    split; [intros k Hk; rewrite V2, V1 by exact Hk; reflexivity|].
    exists (l1 ++ l2)%list. rewrite T2, T1, app_assoc, forallb_app, D1, D2. auto. }
  assert (Hfin : forall s', already s' = already s /\ eventually s' = eventually s /\
            (forall k, k <> "PATH" -> environ s' !! k = environ s !! k) /\
            (exists l, trace s' = (trace s ++ l)%list /\ forallb is_diag l = true) ->
            already s' = already s /\ eventually s' = eventually s /\
            (forall k, k <> "PATH" -> environ s' !! k = environ s !! k) /\
            exists l, trace s' = (trace s ++ l)%list /\ forallb is_diag l = true /\ execs l = []).
  { intros s' (A & E & V & l & T & D). repeat split; auto. exists l. auto. }
  unfold validate_hooks. unfold bind at 1.
  pose proof (validate_hook_frame exe_exists path_exists (cfg_pre_hook config) "pre" s) as H1.
  destruct (validate_hook _ _ (cfg_pre_hook config) "pre" s) as [[e|[]] s1]; [apply Hfin; exact H1|].
  unfold bind at 1.
  pose proof (validate_hook_frame exe_exists path_exists (cfg_post_hook config) "post" s1) as H2.
  destruct (validate_hook _ _ (cfg_post_hook config) "post" s1) as [[e|[]] s2];
    pose proof (Hc _ _ _ H1 H2) as H12; [apply Hfin; exact H12|].
  unfold bind at 1.
  pose proof (validate_hook_frame exe_exists path_exists (cfg_deploy_hook config) "deploy" s2) as H3.
  destruct (validate_hook _ _ (cfg_deploy_hook config) "deploy" s2) as [[e|[]] s3];
    pose proof (Hc _ _ _ H12 H3) as H123; [apply Hfin; exact H123|].
  pose proof (validate_hook_frame exe_exists path_exists (cfg_renew_hook config) "renew" s3) as H4.
  destruct (validate_hook _ _ (cfg_renew_hook config) "renew" s3) as [r4 s4].
  apply Hfin. exact (Hc _ _ _ H123 H4).
Qed.

(** A hook whose program is found only once [path_surgery] has extended
    the PATH validates; the extended PATH stays in [os.environ], and the
    one record written is the DEBUG record of the PATH mitigation. *)
Theorem validate_hook_keeps_surgery exe_exists path_exists cmd name tok path s :
  split_first (default "" cmd) = Some tok ->
  environ s !! "PATH" = Some path ->
  exe_exists (environ s) tok = false ->
  exe_exists (<["PATH" := fst (extend_path path)]> (environ s)) tok = true ->
  nonempty (basename tok) = true ->
  validate_hook exe_exists path_exists cmd name s =
  (inr tt, mkSt (<["PATH" := fst (extend_path path)]> (environ s)) (already s) (eventually s)
             (trace s ++ [Log Debug ("Can't find " ++ tok
                           ++ ", attempting PATH mitigation by adding "
                           ++ String.concat ":" (snd (extend_path path)))])%list).
Proof.
  intros Hs Hp Hx Hy Hb.
  assert (Ht : truthy cmd = true)
    by (destruct cmd as [[|c r]|]; [vm_compute in Hs; discriminate | reflexivity | vm_compute in Hs; discriminate]).
  pose proof (extend_path_unchanged path) as Hu.
  unfold validate_hook, prog, path_surgery. rewrite Ht, Hs. unfold_M. rewrite Hx. unfold_M.
  rewrite Hp. destruct (extend_path path) as [p added]. simpl in *.
  destruct (existsb nonempty added).
  - unfold_M. repeat (rewrite Hy; unfold_M). destruct (basename tok); [discriminate|reflexivity].
  - rewrite (Hu eq_refl), insert_id in Hy by exact Hp. congruence.
Qed.

Lemma validate_hook_keeps_surgery_witness :
  split_first (default "" (Some "nginx -s reload")) = Some "nginx" /\
  environ state_with_path !! "PATH" = Some "/usr/bin:/bin" /\
  exe_in_sbin (environ state_with_path) "nginx" = false /\
  exe_in_sbin (<["PATH" := fst (extend_path "/usr/bin:/bin")]> (environ state_with_path)) "nginx" = true /\
  nonempty (basename "nginx") = true /\
  validate_hook exe_in_sbin path_exists_nonexec (Some "nginx -s reload") "deploy" state_with_path =
  (inr tt, mkSt (<["PATH" := fst (extend_path "/usr/bin:/bin")]> (environ state_with_path))
             (already state_with_path) (eventually state_with_path)
             (trace state_with_path ++ [Log Debug ("Can't find " ++ "nginx"
                ++ ", attempting PATH mitigation by adding "
                ++ String.concat ":" (snd (extend_path "/usr/bin:/bin")))])%list).
Proof.
  split; [vm_compute; reflexivity|]. split; [vm_compute; reflexivity|].
  split; [vm_compute; reflexivity|]. split; [vm_compute; reflexivity|].
  split; [vm_compute; reflexivity|].
  apply (validate_hook_keeps_surgery exe_in_sbin path_exists_nonexec
           (Some "nginx -s reload") "deploy" "nginx" "/usr/bin:/bin" state_with_path);
    vm_compute; reflexivity.
Defined.

(** A hook whose program is found neither before nor after
    [path_surgery] raises [HookCommandNotFound]; [os.environ] keeps the
    PATH [path_surgery] produced, no command runs, and the last record
    written is the WARNING of [path_surgery] citing that PATH. *)
Theorem validate_hook_not_found exe_exists path_exists cmd name tok path s :
  split_first (default "" cmd) = Some tok ->
  environ s !! "PATH" = Some path ->
  exe_exists (environ s) tok = false ->
  exe_exists (<["PATH" := fst (extend_path path)]> (environ s)) tok = false ->
  let '(r, s') := validate_hook exe_exists path_exists cmd name s in
  (exists msg, r = inl (HookCommandNotFound msg)) /\
  environ s' = <["PATH" := fst (extend_path path)]> (environ s) /\
  already s' = already s /\ eventually s' = eventually s /\
  exists l, trace s' =
    (trace s ++ l ++ [Log Warning ("Failed to find executable " ++ tok ++ " in"
       ++ (if existsb nonempty (snd (extend_path path)) then " expanded" else "")
       ++ " PATH: " ++ fst (extend_path path))])%list /\ execs l = [].
Proof.
  intros Hs Hp Hx Hy.
  assert (Ht : truthy cmd = true)
    by (destruct cmd as [[|c r]|]; [vm_compute in Hs; discriminate | reflexivity | vm_compute in Hs; discriminate]).
  pose proof (extend_path_unchanged path) as Hu.
  unfold validate_hook, prog, path_surgery. rewrite Ht, Hs. unfold_M. rewrite Hx. unfold_M.
  rewrite Hp. destruct (extend_path path) as [p added]. simpl in *.
  destruct (existsb nonempty added).
  - unfold_M. rewrite Hy. unfold_M. rewrite Hy. unfold_M.
    rewrite lookup_insert. unfold_M.
    destruct (path_exists tok); unfold_M;
      (split; [eauto|]); (split; [reflexivity|]); (split; [reflexivity|]);
      (split; [reflexivity|]);
      exists [Log Debug ("Can't find " ++ tok ++ ", attempting PATH mitigation by adding "
                         ++ String.concat ":" added)];
      rewrite <- app_assoc; split; reflexivity.
  - specialize (Hu eq_refl). subst p. rewrite insert_id in * by exact Hp.
    unfold_M. repeat (rewrite Hx; unfold_M). rewrite Hp. unfold_M.
    destruct (path_exists tok); unfold_M;
      (split; [eauto|]); (split; [reflexivity|]); (split; [reflexivity|]);
      (split; [reflexivity|]); exists []; split; reflexivity.
Qed.

Lemma validate_hook_not_found_witness :
  split_first (default "" (Some "nginx -s reload")) = Some "nginx" /\
  environ state_with_path !! "PATH" = Some "/usr/bin:/bin" /\
  exe_exists_none (environ state_with_path) "nginx" = false /\
  exe_exists_none (<["PATH" := fst (extend_path "/usr/bin:/bin")]> (environ state_with_path)) "nginx" = false /\
  let '(r, s') := validate_hook exe_exists_none path_exists_nonexec
                    (Some "nginx -s reload") "deploy" state_with_path in
  (exists msg, r = inl (HookCommandNotFound msg)) /\
  environ s' = <["PATH" := fst (extend_path "/usr/bin:/bin")]> (environ state_with_path) /\
  already s' = already state_with_path /\ eventually s' = eventually state_with_path /\
  exists l, trace s' =
    (trace state_with_path ++ l ++ [Log Warning ("Failed to find executable " ++ "nginx" ++ " in"
       ++ (if existsb nonempty (snd (extend_path "/usr/bin:/bin")) then " expanded" else "")
       ++ " PATH: " ++ fst (extend_path "/usr/bin:/bin"))])%list /\ execs l = [].
Proof.
  split; [vm_compute; reflexivity|]. split; [vm_compute; reflexivity|].
  split; [vm_compute; reflexivity|]. split; [vm_compute; reflexivity|].
  apply (validate_hook_not_found exe_exists_none path_exists_nonexec
           (Some "nginx -s reload") "deploy" "nginx" "/usr/bin:/bin" state_with_path);
    vm_compute; reflexivity.
Defined.

(** ** Running one hook *)

(** [_run_hook] on a command with a first token returns the stderr of
    the process, changes nothing but the trace, and logs at error level
    exactly when the exit status is nonzero or stderr is nonempty. *)
Theorem run_hook_reports popen c s out err rc :
  has_token c = true ->
  popen (environ s) c = (out, err, rc) ->
  let '(r, s') := run_hook popen c s in
  r = inr err /\ environ s' = environ s /\ already s' = already s /\
  eventually s' = eventually s /\
  exists l, trace s' = (trace s ++ Exec c (environ s) :: l)%list /\ execs l = [] /\
    ((exists m, In (Log Error m) l) <-> (rc <> 0)%Z \/ nonempty err = true).
Proof.
  intros Hc Hp. unfold has_token in Hc.
  unfold run_hook, execute. unfold_M. rewrite Hp. unfold_M.
  destruct (split_first c) as [tok|]; [|discriminate]. unfold_M.
  destruct (nonempty out); destruct (Z.eqb rc 0) eqn:Erc; destruct (nonempty err) eqn:Ee;
    unfold_M; rewrite ?Z.eqb_eq, ?Z.eqb_neq in Erc;
    (split; [reflexivity|]); (split; [reflexivity|]); (split; [reflexivity|]);
    (split; [reflexivity|]);
    (eexists; split; [rewrite <- ?app_assoc; reflexivity|]); (split; [reflexivity|]);
    (split;
     [intros [m Hm]; simpl in Hm; intuition congruence
     |intros [H|H]; try congruence;
      eexists; simpl; repeat (first [left; reflexivity | right])]).
Qed.

Lemma run_hook_reports_witness :
  has_token "nginx -t" = true /\
  popen_fail (environ initial_state) "nginx -t" = ("", "nginx: configuration file test failed", 1%Z) /\
  let '(r, s') := run_hook popen_fail "nginx -t" initial_state in
  r = inr "nginx: configuration file test failed" /\ environ s' = environ initial_state /\
  already s' = already initial_state /\ eventually s' = eventually initial_state /\
  exists l, trace s' = (trace initial_state ++ Exec "nginx -t" (environ initial_state) :: l)%list /\
    execs l = [] /\
    ((exists m, In (Log Error m) l) <-> (1 <> 0)%Z \/ nonempty "nginx: configuration file test failed" = true).
Proof.
  split; [reflexivity|]. split; [reflexivity|].
  exact (run_hook_reports popen_fail "nginx -t" initial_state "" "nginx: configuration file test failed" 1%Z
           eq_refl eq_refl).
Defined.
